(** * goque: the GOQUE type marker of a data directory

    A shallow embedding of [file.go]: [checkGoqueType] and [syncDir], run
    against a model of the part of package [os] they call.  The operating
    system is a state: the directories with their entries, the outcomes the
    environment has in store for the coming system calls, and the log of
    the calls made so far. *)

From Stdlib.Strings Require Import Byte Ascii.
From stdpp Require Import base option list strings gmap.

Local Open Scope string_scope.

(** ** Errors of package [os] *)

Module Errors.

(** [syscall.Errno], the values that matter here. *)
Inductive Errno : Set :=
| ENOENT | EINVAL | EACCES | EIO | ENOSPC | EROFS | EMFILE | EBADF.

(** Go's [error] values that [os] hands out: the sentinels, a bare errno,
    and the three wrappers with their [Err] field. *)
Inductive error : Set :=
| ErrInvalid                                       (* os.ErrInvalid *)
| ErrNotExist                                      (* os.ErrNotExist *)
| EOF                                              (* io.EOF *)
| SysErrno (e : Errno)                             (* syscall.Errno *)
| SyscallError (call : string) (Err : error)       (* *os.SyscallError *)
| PathError (Op Path : string) (Err : error)       (* *os.PathError *)
| LinkError (Op Old New : string) (Err : error).   (* *os.LinkError *)

(** [os.underlyingError]: one layer of wrapper is removed. *)
Definition underlyingError (err : error) : error :=
  match err with
  | PathError _ _ e => e
  | LinkError _ _ _ e => e
  | SyscallError _ e => e
  | _ => err
  end.

(** [os.IsNotExist]; the argument is Go's [err], [None] for [nil]. *)
Definition IsNotExist (err : option error) : bool :=
  match err with
  | None => false
  | Some e =>
      match underlyingError e with
      | ErrNotExist => true
      | SysErrno ENOENT => true
      | _ => false
      end
  end.

End Errors.
Export Errors.

(** ** The file system *)

Module OS.

(** A directory maps entry names to file contents. *)
Abbreviation dir := (gmap string (list byte)).

(** The elements of a path, the text between its slashes. *)
Fixpoint split_slash (s : string) : list string :=
  match s with
  | EmptyString => [EmptyString]
  | String c s' =>
      if Ascii.eqb c "/"%char then EmptyString :: split_slash s'
      else match split_slash s' with
           | [] => [String c EmptyString]
           | x :: xs => String c x :: xs
           end
  end.

(** One element of a path against the elements kept so far, the last one
    first: empty elements and [.] are dropped, [..] takes back the element
    before it, stays at the head of a relative path and is dropped at the
    root. *)
Definition clean_step (rooted : bool) (kept : list string) (el : string)
  : list string :=
  if String.eqb el "" || String.eqb el "." then kept
  else if String.eqb el ".." then
    match kept with
    | top :: rest => if String.eqb top ".." then el :: kept else rest
    | [] => if rooted then [] else [el]
    end
  else el :: kept.

(** [filepath.Clean], on Unix: the shortest path that names the same place
    by its letters alone; [.] for the empty path. *)
Definition Clean (name : string) : string :=
  let rooted := match name with String c _ => Ascii.eqb c "/"%char | _ => false end in
  let kept := fold_left (clean_step rooted) (split_slash name) [] in
  let body := String.concat "/" (rev kept) in
  if rooted then "/" ++ body
  else if String.eqb body "" then "." else body.

(** [filepath.Join dir name] names the entry [name] of directory [dir]. *)
Record path : Set := Join { p_dir : string; p_base : string }.

(** The string [filepath.Join] returns: the elements from the first one
    that is not empty, joined by slashes and cleaned. *)
Definition path_string (p : path) : string :=
  match p_dir p with
  | EmptyString => match p_base p with
                   | EmptyString => EmptyString
                   | base => Clean base
                   end
  | d => Clean (d ++ "/" ++ p_base p)
  end.

Inductive flag : Set := O_RDONLY | O_RDWR | O_CREATE.

(** An open [*os.File]: a file opened through its path with its flags, or
    a directory.  Every handle of this program makes one transfer, at
    offset 0. *)
Inductive File : Set :=
| FileOf (p : path) (flags : list flag)
| DirOf (d : string).

(** What the environment can do to a call whatever the directory holds:
    make it fail with an error of its choice (permission denied, I/O
    error, disk full, invalid argument, ...).  That an entry is missing
    is no fault, it is read off the state: a fault is never a not-exist
    error. *)
Definition fault : Set := { e : error | IsNotExist (Some e) = false }.

Definition Fault (e : error) (H : IsNotExist (Some e) = false) : fault :=
  exist _ e H.

Definition fault_error (f : fault) : error := proj1_sig f.

(** The calls, as they are logged. *)
Inductive call : Set :=
| COpenFile (p : path) (flags : list flag)
| COpen (d : string)
| CWrite (f : File) (b : list byte)
| CRead (f : File) (n : nat)
| CSync (f : File)
| CClose (f : File)
| CRename (old new : path).

(** A logged call with its error ([None]: it succeeded). *)
Definition event : Set := call * option error.

(** The key of a data directory in [w_fs] stands for the directory in which
    the system looks up the last element of [filepath.Join dataDir name]. *)
Record world : Type := World {
  w_fs : gmap string dir;            (* directory path -> its entries *)
  w_plan : list (option fault);      (* fault of the next call, the one after, ... *)
  w_trace : list event               (* calls made, oldest first *)
}.

(** A computation on the world. *)
Definition M (A : Type) : Type := world -> A * world.

Definition ret {A} (a : A) : M A := fun w => (a, w).
Definition bind {A B} (m : M A) (k : A -> M B) : M B :=
  fun w => let (a, w') := m w in k a w'.

(** The fault in store for the next call; it is used up. *)
Definition next_fault : M (option fault) :=
  fun w => (hd None (w_plan w), World (w_fs w) (tl (w_plan w)) (w_trace w)).

Definition log (c : call) (e : option error) : M unit :=
  fun w => (tt, World (w_fs w) (w_plan w) (w_trace w ++ [(c, e)])).

Definition get_fs : M (gmap string dir) := fun w => (w_fs w, w).
Definition put_fs (fs : gmap string dir) : M unit :=
  fun w => (tt, World fs (w_plan w) (w_trace w)).

End OS.
Export OS.

#[global] Instance M_ret : MRet M := @ret.
#[global] Instance M_bind : MBind M := fun A B k m => bind m k.

(** ** The calls of package [os] that [file.go] makes *)

Module Calls.

Definition has_flag (x : flag) (flags : list flag) : bool :=
  existsb (fun y => match x, y with
                    | O_RDONLY, O_RDONLY | O_RDWR, O_RDWR
                    | O_CREATE, O_CREATE => true
                    | _, _ => false
                    end) flags.

Definition not_found (op name : string) : error :=
  PathError op name (SysErrno ENOENT).

(** [os.OpenFile(name, flag, perm)].  Without [O_CREATE] a missing entry
    is ENOENT; with it the entry is created empty.  An entry that exists
    is opened as it is: no flag here truncates it. *)
Definition OpenFile (p : path) (flags : list flag) : M (File + error) :=
  flt ← next_fault;
  fs ← get_fs;
  let name := path_string p in
  match flt with
  | Some x =>
      let e := fault_error x in
      log (COpenFile p flags) (Some e);; ret (inr e)
  | None =>
      match fs !! p_dir p with
      | None =>
          let e := not_found "open" name in
          log (COpenFile p flags) (Some e);; ret (inr e)
      | Some d =>
          match d !! p_base p with
          | Some _ =>
              log (COpenFile p flags) None;; ret (inl (FileOf p flags))
          | None =>
              if has_flag O_CREATE flags then
                put_fs (<[p_dir p := <[p_base p := []]> d]> fs);;
                log (COpenFile p flags) None;;
                ret (inl (FileOf p flags))
              else
                let e := not_found "open" name in
                log (COpenFile p flags) (Some e);; ret (inr e)
          end
      end
  end.

(** [os.Open(name)], here always on a directory.  The empty name names no
    directory, though [filepath.Join] of it with an entry names an entry of
    the current directory: opening it is ENOENT.  Any other name is taken
    to name, for the system, the directory that [filepath.Join] puts its
    entries in. *)
Definition Open (d : string) : M (File + error) :=
  flt ← next_fault;
  fs ← get_fs;
  match flt with
  | Some x =>
      let e := fault_error x in
      log (COpen d) (Some e);; ret (inr e)
  | None =>
      if String.eqb d "" then
        let e := not_found "open" d in
        log (COpen d) (Some e);; ret (inr e)
      else
        match fs !! d with
        | None =>
            let e := not_found "open" d in
            log (COpen d) (Some e);; ret (inr e)
        | Some _ => log (COpen d) None;; ret (inl (DirOf d))
        end
  end.

(** Bytes [b] laid over [old] from offset 0. *)
Definition overwrite (b old : list byte) : list byte :=
  b ++ drop (length b) old.

Definition file_name (f : File) : string :=
  match f with
  | FileOf p _ => path_string p
  | DirOf d => d
  end.

Definition bad_file (op : string) (f : File) : error :=
  PathError op (file_name f) (SysErrno EBADF).

(** [f.Write(b)]: the error is returned, the count is not used. *)
Definition File_Write (f : File) (b : list byte) : M (option error) :=
  flt ← next_fault;
  fs ← get_fs;
  match flt with
  | Some x =>
      let e := fault_error x in
      log (CWrite f b) (Some e);; ret (Some e)
  | None =>
      match f with
      | FileOf p flags =>
          match fs !! p_dir p with
          | Some d =>
              match d !! p_base p with
              | Some old =>
                  if has_flag O_RDWR flags then
                    put_fs (<[p_dir p := <[p_base p := overwrite b old]> d]> fs);;
                    log (CWrite f b) None;; ret None
                  else
                    let e := bad_file "write" f in
                    log (CWrite f b) (Some e);; ret (Some e)
              | None =>
                  let e := bad_file "write" f in
                  log (CWrite f b) (Some e);; ret (Some e)
              end
          | None =>
              let e := bad_file "write" f in
              log (CWrite f b) (Some e);; ret (Some e)
          end
      | DirOf _ =>
          let e := bad_file "write" f in
          log (CWrite f b) (Some e);; ret (Some e)
      end
  end.

(** [f.Read(fb)] with [len(fb) = n]: the bytes read and the error; at the
    end of the file, no byte and [io.EOF]. *)
Definition File_Read (f : File) (n : nat) : M (list byte * option error) :=
  flt ← next_fault;
  fs ← get_fs;
  match flt with
  | Some x =>
      let e := fault_error x in
      log (CRead f n) (Some e);; ret ([], Some e)
  | None =>
      match f with
      | FileOf p _ =>
          match fs !! p_dir p ≫= (.!! p_base p) with
          | Some content =>
              match take n content with
              | [] => log (CRead f n) (Some EOF);; ret ([], Some EOF)
              | got => log (CRead f n) None;; ret (got, None)
              end
          | None =>
              let e := bad_file "read" f in
              log (CRead f n) (Some e);; ret ([], Some e)
          end
      | DirOf _ =>
          let e := bad_file "read" f in
          log (CRead f n) (Some e);; ret ([], Some e)
      end
  end.

(** [f.Sync()] and [f.Close()] leave the entries as they are. *)
Definition File_Sync (f : File) : M (option error) :=
  flt ← next_fault;
  let e := fault_error <$> flt in
  log (CSync f) e;; ret e.

Definition File_Close (f : File) : M (option error) :=
  flt ← next_fault;
  let e := fault_error <$> flt in
  log (CClose f) e;; ret e.

(** [os.Rename(oldpath, newpath)]: the entry moves, replacing the target;
    a failed rename moves nothing. *)
Definition Rename (old new : path) : M (option error) :=
  flt ← next_fault;
  fs ← get_fs;
  let failed (e : error) := log (CRename old new) (Some e);; ret (Some e) in
  match flt with
  | Some x =>
      failed (fault_error x)
  | None =>
      let enoent :=
        LinkError "rename" (path_string old) (path_string new) (SysErrno ENOENT) in
      match fs !! p_dir old ≫= (.!! p_base old) with
      | None => failed enoent
      | Some content =>
          let fs1 := alter (delete (p_base old)) (p_dir old) fs in
          match fs1 !! p_dir new with
          | None => failed enoent
          | Some d =>
              put_fs (<[p_dir new := <[p_base new := content]> d]> fs1);;
              log (CRename old new) None;; ret None
          end
      end
  end.

End Calls.
Export Calls.

(** ** file.go *)

Module Goque.

(** [type goqueType uint8] *)
Definition goqueType : Set := byte.

Definition goqueStack : goqueType := x00.
Definition goqueQueue : goqueType := x01.
Definition goquePriorityQueue : goqueType := x02.
Definition goquePrefixQueue : goqueType := x03.

(** [err == os.ErrInvalid] *)
Definition is_ErrInvalid (err : error) : bool :=
  match err with ErrInvalid => true | _ => false end.

(** [err] is an [os.SyscallError] and [syserr.Err == syscall.EINVAL] *)
Definition is_SyscallError_EINVAL (err : error) : bool :=
  match err with SyscallError _ (SysErrno EINVAL) => true | _ => false end.

(** [err] is an [os.PathError] and [patherr.Err == syscall.EINVAL] *)
Definition is_PathError_EINVAL (err : error) : bool :=
  match err with PathError _ _ (SysErrno EINVAL) => true | _ => false end.

(** [func syncDir(path string) error]; the deferred [f.Close()] runs on
    the way out, its error is dropped. *)
Definition syncDir (path : string) : M (option error) :=
  r ← Open path;
  match r with
  | inr err => mret (Some err)
  | inl f =>
      serr ← File_Sync f;
      let result :=
        match serr with
        | Some err =>
            if is_ErrInvalid err then None
            else if is_SyscallError_EINVAL err then None
            else if is_PathError_EINVAL err then None
            else Some err
        | None => None
        end in
      File_Close f;; mret result
  end.

(** The error of an [(f, err)] pair. *)
Definition err_of {A} (r : A + error) : option error :=
  match r with inl _ => None | inr e => Some e end.

(** [func checkGoqueType(dataDir string, gt goqueType) (bool, error)] *)
Definition checkGoqueType (dataDir : string) (gt : goqueType)
  : M (bool * option error) :=
  let path := Join dataDir "GOQUE" in
  r ← OpenFile path [O_RDONLY];
  if IsNotExist (err_of r) then
    let tempPath := Join dataDir "GOQUE.tmp" in
    r ← OpenFile tempPath [O_RDWR; O_CREATE];
    match r with
    | inr err => mret (false, Some err)
    | inl f =>
        let gtb := <[0%nat := gt]> (replicate 1 x00) in
        err ← File_Write f gtb;
        match err with
        | Some e => File_Close f;; mret (false, Some e)
        | None =>
            err ← File_Sync f;
            match err with
            | Some e => File_Close f;; mret (false, Some e)
            | None =>
                err ← File_Close f;
                match err with
                | Some e => mret (false, Some e)
                | None =>
                    err ← Rename tempPath path;
                    match err with
                    | Some e => mret (false, Some e)
                    | None =>
                        err ← syncDir dataDir;
                        match err with
                        | Some e => mret (false, Some e)
                        | None => mret (true, None)
                        end
                    end
                end
            end
        end
    end
  else
    match r with
    | inr err => mret (false, Some err)
    | inl f =>
        (* defer f.Close() *)
        rd ← File_Read f 1;
        let fb := overwrite rd.1 (replicate 1 x00) in
        match rd.2 with
        | Some err => File_Close f;; mret (false, Some err)
        | None =>
            let filegt : goqueType := hd x00 fb in
            let result :=
              if Byte.eqb filegt gt then (true, None)
              else if Byte.eqb filegt goqueStack && Byte.eqb gt goqueQueue
              then (true, None)
              else if Byte.eqb filegt goqueQueue && Byte.eqb gt goqueStack
              then (true, None)
              else (false, None) in
            File_Close f;; mret result
        end
    end.

(** A world that has made no call yet. *)
Definition boot (fs : gmap string dir) (plan : list (option fault)) : world :=
  World fs plan [].

(** The marker and the staging file of a data directory, if any. *)
Definition marker (dataDir : string) (w : world) : option (list byte) :=
  w_fs w !! dataDir ≫= (.!! "GOQUE").
Definition staging (dataDir : string) (w : world) : option (list byte) :=
  w_fs w !! dataDir ≫= (.!! "GOQUE.tmp").

End Goque.
Export Goque.


(** ** What the statements below talk about *)

Module Props.

(** The fault in store for the [i]-th coming call, counted from 0. *)
Definition fault_at (i : nat) (w : world) : option fault :=
  hd None (Nat.iter i tail (w_plan w)).

(** The calls a computation makes from [w], whatever was logged before. *)
Definition fresh_log (w : world) : world := World (w_fs w) (w_plan w) [].
Definition calls_made {A} (m : M A) (w : world) : list event :=
  w_trace (m (fresh_log w)).2.

(** The four tags of the constant block. *)
Definition defined_variant (t : goqueType) : Prop :=
  t = goqueStack \/ t = goqueQueue \/ t = goquePriorityQueue \/ t = goquePrefixQueue.

(** Equal tags, or a stack and a queue in either order. *)
Definition compatible (A B : goqueType) : Prop :=
  A = B \/ (A = goqueStack /\ B = goqueQueue) \/ (A = goqueQueue /\ B = goqueStack).

(** [syncDir]'s three readings of "this handle cannot be synced". *)
Definition unsupported (e : error) : Prop :=
  e = ErrInvalid \/
  (exists c, e = SyscallError c (SysErrno EINVAL)) \/
  (exists op p, e = PathError op p (SysErrno EINVAL)).

(** The creation path was entered: its first call, the only one that asks
    for an entry to be created, is in the log. *)
Definition enters_creation (t : list event) : bool :=
  existsb (fun ev : event =>
             match ev.1 with
             | COpenFile _ flags => has_flag O_CREATE flags
             | _ => false
             end) t.

(** Calls that change nothing on disk. *)
Definition read_only (c : call) : bool :=
  match c with
  | COpenFile _ flags => negb (has_flag O_CREATE flags) && negb (has_flag O_RDWR flags)
  | CRead _ _ | CClose _ => true
  | _ => false
  end.

(** Whether a rename went through. *)
Definition renamed (t : list event) : bool :=
  existsb (fun ev => match ev with (CRename _ _, None) => true | _ => false end) t.

(** Two worlds hold the same entries, the staging file of [dataDir] apart. *)
Definition same_but_staging (dataDir : string) (w w' : world) : Prop :=
  forall (d name : string),
    (d, name) <> (dataDir, "GOQUE.tmp") ->
    w_fs w' !! d ≫= (.!! name) = w_fs w !! d ≫= (.!! name).

(** The five effects of the creation path, in the order of the source. *)
Inductive step : Set := WriteByte | FlushTemp | CloseTemp | RenameTemp | SyncDataDir.

Definition creation_order : list step :=
  [WriteByte; FlushTemp; CloseTemp; RenameTemp; SyncDataDir].

Definition rank (s : step) : nat :=
  match s with
  | WriteByte => 0 | FlushTemp => 1 | CloseTemp => 2 | RenameTemp => 3
  | SyncDataDir => 4
  end.

Definition step_eqb (s s' : step) : bool := Nat.eqb (rank s) (rank s').

(** The effect a logged call stands for, if any: opening a file or a
    directory, closing the directory and the calls on the marker itself
    are none of the five. *)
Definition step_of (c : call) : option step :=
  match c with
  | CWrite _ _ => Some WriteByte
  | CSync (FileOf _ _) => Some FlushTemp
  | CClose (FileOf p _) =>
      if String.eqb (p_base p) "GOQUE.tmp" then Some CloseTemp else None
  | CRename _ _ => Some RenameTemp
  | CSync (DirOf _) => Some SyncDataDir
  | _ => None
  end.

(** The effects of a log, each with whether it succeeded. *)
Definition effects (t : list event) : list (step * bool) :=
  omap (fun ev : event =>
          s ← step_of ev.1;
          Some (s, match ev.2 with None => true | Some _ => false end)) t.

Definition attempted (s : step) (effs : list (step * bool)) : bool :=
  existsb (fun e => step_eqb e.1 s) effs.

(** What was done before [s] was first attempted. *)
Fixpoint before (s : step) (effs : list (step * bool)) : list (step * bool) :=
  match effs with
  | [] => []
  | e :: rest => if step_eqb e.1 s then [] else e :: before s rest
  end.

(** The steps that precede [s] in the source, all done with success. *)
Definition predecessors_done (s : step) : list (step * bool) :=
  (fun x => (x, true)) <$> take (rank s) creation_order.

(** The call that makes the step [s] of a creation in [dataDir] for the
    tag [gt]: the tag byte written to the staging file, that file flushed
    and closed, renamed onto the marker, the data directory flushed. *)
Definition step_call (dataDir : string) (gt : goqueType) (s : step) : call :=
  let path := Join dataDir "GOQUE" in
  let tempPath := Join dataDir "GOQUE.tmp" in
  let f := FileOf tempPath [O_RDWR; O_CREATE] in
  match s with
  | WriteByte => CWrite f [gt]
  | FlushTemp => CSync f
  | CloseTemp => CClose f
  | RenameTemp => CRename tempPath path
  | SyncDataDir => CSync (DirOf dataDir)
  end.

(** The first call of a log that failed, with its error. *)
Fixpoint first_error (t : list event) : option (call * error) :=
  match t with
  | [] => None
  | (c, Some e) :: _ => Some (c, e)
  | (_, None) :: rest => first_error rest
  end.

(** The calls of the creation path up to the rename, for the tag [gt]. *)
Definition creation_steps (dataDir : string) (gt : goqueType) : list call :=
  COpenFile (Join dataDir "GOQUE.tmp") [O_RDWR; O_CREATE]
  :: (step_call dataDir gt <$> [WriteByte; FlushTemp; CloseTemp; RenameTemp]).


(** A computation that never reads the log: run from [w], it does what it
    does from [fresh_log w], after what [w] had logged. *)
Definition oblivious {A} (m : M A) : Prop :=
  forall w, m w = let '(a, w') := m (fresh_log w) in
                  (a, World (w_fs w') (w_plan w') (w_trace w ++ w_trace w')%list).

(** The calls of a creation that goes through, for the tag [gt]. *)
Definition creation_calls (dataDir : string) (gt : goqueType)
    (serr cerr : option error) : list event :=
  let path := Join dataDir "GOQUE" in
  let tempPath := Join dataDir "GOQUE.tmp" in
  let f := FileOf tempPath [O_RDWR; O_CREATE] in
  [ (COpenFile path [O_RDONLY], Some (not_found "open" (path_string path)));
    (COpenFile tempPath [O_RDWR; O_CREATE], None);
    (CWrite f [gt], None);
    (CSync f, None);
    (CClose f, None);
    (CRename tempPath path, None);
    (COpen dataDir, None);
    (CSync (DirOf dataDir), serr);
    (CClose (DirOf dataDir), cerr) ].

End Props.
Export Props.

(** ** File handles *)

Module Handles.

(** [held hs t]: the log [t], begun with the handles [hs] open, the most
    recent first, reads, writes and syncs only handles that are open,
    closes the most recent one, renames no file it holds open, and ends
    with no handle open. *)
Inductive held : list File -> list event -> Prop :=
| held_end : held [] []
| held_OpenFile p flags hs t :
    held (FileOf p flags :: hs) t -> held hs ((COpenFile p flags, None) :: t)
| held_OpenFile_failed p flags e hs t :
    held hs t -> held hs ((COpenFile p flags, Some e) :: t)
| held_Open d hs t :
    held (DirOf d :: hs) t -> held hs ((COpen d, None) :: t)
| held_Open_failed d e hs t :
    held hs t -> held hs ((COpen d, Some e) :: t)
| held_Write f b e hs t :
    f ∈ hs -> held hs t -> held hs ((CWrite f b, e) :: t)
| held_Read f n e hs t :
    f ∈ hs -> held hs t -> held hs ((CRead f n, e) :: t)
| held_Sync f e hs t :
    f ∈ hs -> held hs t -> held hs ((CSync f, e) :: t)
| held_Close f e hs t :
    held hs t -> held (f :: hs) ((CClose f, e) :: t)
| held_Rename old new e hs t :
    (forall flags, FileOf old flags ∉ hs) ->
    held hs t -> held hs ((CRename old new, e) :: t).

End Handles.
Export Handles.

#[global] Instance byte_eq_dec : EqDecision byte := Byte.byte_eq_dec.
#[global] Instance compatible_dec A B : Decision (compatible A B).
Proof. unfold compatible. apply _. Defined.

(** ** Running the model *)

Section Runs.

Lemma IsNotExist_fault (x : fault) : IsNotExist (Some (fault_error x)) = false.
Proof. by destruct x. Qed.

Lemma IsNotExist_not_found op name : IsNotExist (Some (not_found op name)) = true.
Proof. done. Qed.

Lemma IsNotExist_nil : IsNotExist None = false.
Proof. done. Qed.

Lemma byte_eqb_decide (a b : byte) : Byte.eqb a b = bool_decide (a = b).
Proof.
  case_bool_decide as H.
  - by apply Byte.byte_dec_lb.
  - destruct (Byte.eqb a b) eqn:E; [|done]. by apply Byte.byte_dec_bl in E.
Qed.

(** The comparison at the end of [checkGoqueType] decides [compatible]. *)
Lemma compare_types (filegt gt : goqueType) :
  (if Byte.eqb filegt gt then (true, @None error)
   else if Byte.eqb filegt goqueStack && Byte.eqb gt goqueQueue then (true, None)
   else if Byte.eqb filegt goqueQueue && Byte.eqb gt goqueStack then (true, None)
   else (false, None))
  = (bool_decide (compatible filegt gt), None).
Proof.
  rewrite !byte_eqb_decide. unfold compatible.
  repeat case_bool_decide; cbn; try done; intuition congruence.
Qed.

End Runs.

#[local] Arguments IsNotExist : simpl never.
#[local] Arguments fault_error : simpl never.
#[local] Arguments not_found : simpl never.
#[local] Arguments Byte.eqb : simpl never.
#[local] Arguments String.eqb : simpl never.
#[local] Arguments path_string : simpl never.
#[local] Arguments Clean : simpl never.

(** Unfolds the calls down to the world they act on. *)
Ltac unfold_calls :=
  unfold calls_made, fresh_log, checkGoqueType, syncDir, OpenFile, Open,
    File_Write, File_Read, File_Sync, File_Close, Rename, next_fault, get_fs,
    put_fs, log, mbind, mret, M_bind, M_ret, bind, ret.

(** Splits on the innermost scrutinee the goal is stuck on. *)
Ltac split_match :=
  match goal with
  | |- context [match ?x with _ => _ end] =>
      lazymatch x with
      | context [match _ with _ => _ end] => fail
      | _ => destruct x eqn:?
      end
  end.

(** Brings lookups and error tests to their values. *)
Ltac norm_fs :=
  cbn;
  rewrite ?IsNotExist_fault, ?IsNotExist_not_found, ?IsNotExist_nil;
  rewrite ?lookup_insert_eq, ?lookup_alter_eq, ?lookup_delete_eq;
  rewrite ?lookup_insert_ne, ?lookup_delete_ne by done;
  repeat match goal with
    | H : ?m !! ?k = _ |- context [?m !! ?k] => rewrite H
    end;
  cbn.

Section ReadPath.

Variables (dataDir : string) (gt : goqueType).
Variables (fs : gmap string dir) (plan : list (option fault)) (tr : list event).
Variables (d : dir) (content : list byte).
Hypothesis Hdir : fs !! dataDir = Some d.
Hypothesis Hmarker : d !! "GOQUE" = Some content.

Let path := Join dataDir "GOQUE".
Let f := FileOf path [O_RDONLY].

(** With the marker in place a run is: open it, read one byte, close. *)
Lemma read_path_run :
  checkGoqueType dataDir gt (World fs plan tr) =
    match hd None plan with
    | Some x =>
        ((false, Some (fault_error x)),
         World fs (tail plan)
           (tr ++ [(COpenFile path [O_RDONLY], Some (fault_error x))]))
    | None =>
        let after rd :=
          World fs (tail (tail (tail plan)))
            (((tr ++ [(COpenFile path [O_RDONLY], None)]) ++ [rd]) ++
             [(CClose f, fault_error <$> hd None (tail (tail plan)))]) in
        match hd None (tail plan) with
        | Some x =>
            ((false, Some (fault_error x)), after (CRead f 1, Some (fault_error x)))
        | None =>
            match content with
            | [] => ((false, Some EOF), after (CRead f 1, Some EOF))
            | filegt :: _ =>
                ((bool_decide (compatible filegt gt), None), after (CRead f 1, None))
            end
        end
    end.
Proof.
  unfold_calls. cbn. rewrite Hdir. cbn. rewrite Hmarker.
  destruct (hd None plan); norm_fs; [done|].
  rewrite Hdir. cbn. rewrite Hmarker.
  destruct (hd None (tail plan)); norm_fs; [done|].
  destruct content as [|filegt rest]; cbn; [done|].
  by rewrite compare_types.
Qed.

End ReadPath.

Section Markers.

Lemma marker_Some dataDir w c :
  marker dataDir w = Some c ->
  exists d, w_fs w !! dataDir = Some d /\ d !! "GOQUE" = Some c.
Proof.
  unfold marker. destruct (w_fs w !! dataDir) as [d|]; [|done].
  cbn. by exists d.
Qed.

Lemma marker_None dataDir w :
  marker dataDir w = None ->
  w_fs w !! dataDir = None \/
  exists d, w_fs w !! dataDir = Some d /\ d !! "GOQUE" = None.
Proof.
  unfold marker. destruct (w_fs w !! dataDir) as [d|]; [|by left].
  cbn. right. by exists d.
Qed.

End Markers.

(** ** Reopening a tagged directory *)

(** C1. A marker holding the defined tag [A], opened and read without an
    I/O fault, is compatible with the defined variant [B] exactly when the
    tags are equal or are a stack and a queue in either order; every other
    pair, so every pair of different tags with a priority queue or a prefix
    queue in it, gives [(false, nil)]. *)
Theorem tagged_directory_compatibility dataDir (A B : goqueType) rest w :
  marker dataDir w = Some (A :: rest) ->
  defined_variant A -> defined_variant B ->
  fault_at 0 w = None -> fault_at 1 w = None ->
  let r := (checkGoqueType dataDir B w).1 in
  (r = (true, None) <-> compatible A B) /\
  (~ compatible A B -> r = (false, None)) /\
  (A <> B ->
   A = goquePriorityQueue \/ A = goquePrefixQueue \/
   B = goquePriorityQueue \/ B = goquePrefixQueue ->
   r = (false, None)).
Proof.
  intros (d & Hd & Hm)%marker_Some _ _ H0 H1. destruct w as [fs plan tr].
  unfold fault_at in *. cbn in *.
  rewrite (read_path_run _ _ _ _ _ _ _ Hd Hm), H0, H1. cbn.
  case_bool_decide as Hc.
  - repeat split; try done.
    intros Hne Hpq. unfold compatible, goqueStack, goqueQueue in Hc.
    unfold goquePriorityQueue, goquePrefixQueue in Hpq.
    exfalso. intuition congruence.
  - repeat split; done.
Qed.

Lemma tagged_directory_compatibility_witness :
  let w := boot {[ "D" := {[ "GOQUE" := [x01] ]} ]} [] in
  (checkGoqueType "D" goqueStack w).1 = (true, None) /\
  (checkGoqueType "D" goquePrefixQueue w).1 = (false, None).
Proof.
  intros w. split.
  - apply (tagged_directory_compatibility "D" goqueQueue goqueStack [] w);
      [reflexivity | right; left; reflexivity | left; reflexivity
      | reflexivity | reflexivity |].
    right; right. split; reflexivity.
  - apply (tagged_directory_compatibility "D" goqueQueue goquePrefixQueue [] w);
      [reflexivity | right; left; reflexivity | right; right; right; reflexivity
      | reflexivity | reflexivity | discriminate |].
    right; right; right. reflexivity.
Defined.

(** C3, as the claim has it, fails: a marker byte outside 0..3 is reported
    compatible with a request of the same raw value. *)
Lemma unknown_tag_matches_itself :
  let w := boot {[ "D" := {[ "GOQUE" := [x07] ]} ]} [] in
  marker "D" w = Some [x07] /\ ~ defined_variant x07 /\
  (checkGoqueType "D" x07 w).1 = (true, None).
Proof.
  repeat split; try reflexivity.
  unfold defined_variant, goqueStack, goqueQueue, goquePriorityQueue,
    goquePrefixQueue. intuition discriminate.
Qed.

(** C3, amended. A marker byte [t] outside 0..3 is never reported
    compatible with a requested value other than [t], so with none of the
    four defined variants, whatever the I/O does; requested with the raw
    value [t] itself and no I/O fault, it is reported compatible. *)
Theorem unknown_tag_incompatible dataDir (t gt : goqueType) rest w :
  marker dataDir w = Some (t :: rest) ->
  ~ defined_variant t ->
  let r := (checkGoqueType dataDir gt w).1 in
  (gt <> t -> r.1 = false) /\
  (defined_variant gt -> r.1 = false) /\
  (gt = t -> fault_at 0 w = None -> fault_at 1 w = None -> r = (true, None)).
Proof.
  intros (d & Hd & Hm)%marker_Some Hu. destruct w as [fs plan tr].
  unfold fault_at. cbn.
  rewrite (read_path_run _ _ _ _ _ _ _ Hd Hm).
  assert (forall gt', gt' <> t -> bool_decide (compatible t gt') = false) as Hne.
  { intros gt' Hgt. apply bool_decide_eq_false. unfold compatible.
    unfold defined_variant in Hu. intuition congruence. }
  repeat split.
  - intros Hgt. repeat (split_match; cbn; try done). by apply Hne.
  - intros Hgt. repeat (split_match; cbn; try done). apply Hne.
    intros ->. done.
  - intros -> -> ->. cbn. rewrite bool_decide_eq_true_2; [done|by left].
Qed.

Lemma unknown_tag_incompatible_witness :
  let w := boot {[ "D" := {[ "GOQUE" := [x07] ]} ]} [] in
  (checkGoqueType "D" goqueQueue w).1.1 = false.
Proof.
  intros w.
  refine (proj1 (unknown_tag_incompatible "D" x07 goqueQueue [] w _ _) _).
  - reflexivity.
  - unfold defined_variant, goqueStack, goqueQueue, goquePriorityQueue,
      goquePrefixQueue. intuition discriminate.
  - discriminate.
Defined.

(** C8. With the marker in place a call writes nothing: the entries of
    every directory are what they were, and the calls made only open for
    reading, read and close. *)
Theorem reopen_is_read_only dataDir gt w content :
  marker dataDir w = Some content ->
  w_fs (checkGoqueType dataDir gt w).2 = w_fs w /\
  forallb (fun ev : event => read_only ev.1) (calls_made (checkGoqueType dataDir gt) w) = true.
Proof.
  intros (d & Hd & Hm)%marker_Some. destruct w as [fs plan tr].
  unfold calls_made, fresh_log. cbn in *.
  rewrite !(read_path_run _ _ _ _ _ _ _ Hd Hm).
  repeat (split_match; cbn; try done).
Qed.

Lemma reopen_is_read_only_witness :
  let w := boot {[ "D" := {[ "GOQUE" := [x02] ]} ]} [] in
  w_fs (checkGoqueType "D" goqueStack w).2 = w_fs w /\
  forallb (fun ev : event => read_only ev.1) (calls_made (checkGoqueType "D" goqueStack) w) = true.
Proof.
  intros w. apply (reopen_is_read_only "D" goqueStack w [x02]). reflexivity.
Defined.

(** ** Syncing a directory *)

Section SyncDir.

Lemma unsupported_tests (e : error) :
  unsupported e <->
  is_ErrInvalid e || is_SyscallError_EINVAL e || is_PathError_EINVAL e = true.
Proof.
  unfold unsupported. split.
  - intros [-> | [[c ->] | (op & p & ->)]]; reflexivity.
  - destruct e as [| | | |c [| | |[]| | |]|op p [| | |[]| | |]|]; cbn;
      try discriminate; intros _; eauto.
Qed.

(** What the flush's error becomes. *)
Lemma flush_verdict (serr : option error) :
  let result :=
    match serr with
    | Some err =>
        if is_ErrInvalid err then None
        else if is_SyscallError_EINVAL err then None
        else if is_PathError_EINVAL err then None
        else Some err
    | None => None
    end in
  match serr with
  | None => result = None
  | Some e =>
      (unsupported e /\ result = None) \/ (~ unsupported e /\ result = Some e)
  end.
Proof.
  destruct serr as [e|]; cbn; [|done].
  pose proof (unsupported_tests e) as Hu.
  destruct (is_ErrInvalid e), (is_SyscallError_EINVAL e),
    (is_PathError_EINVAL e); cbn in Hu.
  all: try (left; split; [by apply Hu|done]).
  right. split; [|done]. intros H%Hu. done.
Qed.

End SyncDir.

(** C4. [syncDir] returns nil exactly when the directory was opened and the
    flush either completed or reported that the handle cannot be synced;
    an error of the open, and any other error of the flush, is returned as
    it is.  The entries are not touched. *)
Theorem syncDir_verdict (path : string) (w : world) :
  let result := (syncDir path w).1 in
  (result = None <->
     exists f w1, Open path w = (inl f, w1) /\
       ((File_Sync f w1).1 = None \/
        exists e, (File_Sync f w1).1 = Some e /\ unsupported e)) /\
  (forall e w1, Open path w = (inr e, w1) -> result = Some e) /\
  (forall f w1 e, Open path w = (inl f, w1) -> (File_Sync f w1).1 = Some e ->
     ~ unsupported e -> result = Some e) /\
  w_fs (syncDir path w).2 = w_fs w.
Proof.
  cbv zeta. unfold syncDir, mbind, M_bind, bind.
  destruct (Open path w) as [[f|e] w1] eqn:Hopen.
  - destruct (File_Sync f w1) as [serr w2] eqn:Hsync.
    pose proof (flush_verdict serr) as Hv. cbv zeta in Hv.
    assert (w_fs w2 = w_fs w) as Hfs.
    { revert Hopen Hsync. destruct w as [fs plan tr]. unfold_calls. cbn.
      repeat (split_match; cbn); intros; by simplify_eq/=. }
    unfold File_Close, mbind, mret, M_bind, M_ret, bind, ret, next_fault, log.
    cbn. repeat split; [| |by intros e w0 [=]| |exact Hfs].
    + intros Hr. exists f, w1. split; [done|]. rewrite Hsync. cbn.
      destruct serr as [e|]; [right|by left]. exists e. split; [done|].
      destruct Hv as [[Hu _]|[_ Hv]]; [done|congruence].
    + intros (f' & w1' & [= <- <-] & Hs). rewrite Hsync in Hs. cbn in Hs.
      destruct Hs as [-> | (e & -> & He)]; [done|].
      destruct Hv as [[_ Hv]|[Hu _]]; done.
    + intros f' w1' e [= <- <-]. rewrite Hsync. cbn. intros -> Hn.
      destruct Hv as [[Hu _]|[_ Hv]]; done.
  - cbn. repeat split; try done.
    + intros (f' & w1' & [=] & _).
    + by intros e' w1' [= <- <-].
    + revert Hopen. destruct w as [fs plan tr]. unfold_calls. cbn.
      repeat (split_match; cbn); intros; by simplify_eq/=.
Qed.

(** ** Errors and the way into the creation path *)

(** Runs the model to the end of every path. *)
Ltac run_paths := repeat (norm_fs; try split_match).

(** C6. A non-nil error comes with [false]: [true] is only returned
    together with a nil error. *)
Theorem error_means_incompatible dataDir gt w b e w' :
  checkGoqueType dataDir gt w = ((b, Some e), w') -> b = false.
Proof.
  destruct w as [fs plan tr]. unfold_calls.
  run_paths; congruence.
Qed.

Lemma error_means_incompatible_witness :
  let w := boot {[ "D" := {[ "GOQUE" := [] ]} ]} [] in
  (checkGoqueType "D" goqueStack w).1.2 = Some EOF /\
  (checkGoqueType "D" goqueStack w).1.1 = false.
Proof.
  intros w. split; [reflexivity|].
  apply (error_means_incompatible "D" goqueStack w _ EOF
           (checkGoqueType "D" goqueStack w).2).
  reflexivity.
Defined.

(** C5. The creation path is entered exactly when opening the marker fails
    with a not-exist error.  On any other error of that open the call
    returns it with [false], having made no other call and changed no
    entry. *)
Theorem creation_only_when_not_found dataDir gt w :
  let path := Join dataDir "GOQUE" in
  let opened := (OpenFile path [O_RDONLY] w).1 in
  (enters_creation (calls_made (checkGoqueType dataDir gt) w) = true <->
     IsNotExist (err_of opened) = true) /\
  (forall e, opened = inr e -> IsNotExist (Some e) = false ->
     (checkGoqueType dataDir gt w).1 = (false, Some e) /\
     w_fs (checkGoqueType dataDir gt w).2 = w_fs w /\
     calls_made (checkGoqueType dataDir gt) w = [(COpenFile path [O_RDONLY], Some e)]).
Proof.
  destruct w as [fs plan tr]. unfold_calls. cbn.
  destruct (hd None plan) as [x|]; norm_fs.
  { split; [done|]. by intros e [= <-] _. }
  destruct (fs !! dataDir) as [d|]; norm_fs.
  2:{ split; [|by intros e [= <-] [=]]. split; [done|intros _].
      run_paths; done. }
  destruct (d !! "GOQUE") as [content|] eqn:Hm; norm_fs.
  - split; [|by intros e [=]]. split; [|done].
    run_paths; done.
  - split; [|by intros e [= <-] [=]]. split; [done|intros _].
    run_paths; done.
Qed.

(** ** The log only grows *)

Section Oblivious.

Lemma oblivious_ret {A} (a : A) : oblivious (mret a).
Proof. intros [fs plan tr]. cbn. by rewrite app_nil_r. Qed.

Lemma oblivious_bind {A B} (m : M A) (k : A -> M B) :
  oblivious m -> (forall a, oblivious (k a)) -> oblivious (m ≫= k).
Proof.
  intros Hm Hk w. unfold mbind, M_bind, bind.
  rewrite (Hm w). destruct (m (fresh_log w)) as [a w1].
  rewrite (Hk a), (Hk a w1).
  unfold fresh_log; cbn. destruct (k a _) as [b w2]. cbn.
  by rewrite app_assoc.
Qed.

Lemma oblivious_next_fault : oblivious next_fault.
Proof. intros [fs plan tr]. cbn. by rewrite app_nil_r. Qed.

Lemma oblivious_get_fs : oblivious get_fs.
Proof. intros [fs plan tr]. cbn. by rewrite app_nil_r. Qed.

Lemma oblivious_put_fs fs : oblivious (put_fs fs).
Proof. intros [fs' plan tr]. cbn. by rewrite app_nil_r. Qed.

Lemma oblivious_log c e : oblivious (log c e).
Proof. by intros [fs plan tr]. Qed.

End Oblivious.

Create HintDb oblivious.
#[local] Hint Resolve oblivious_ret oblivious_next_fault oblivious_get_fs
  oblivious_put_fs oblivious_log : oblivious.

Ltac oblivious_step :=
  match goal with
  | |- oblivious (_ ≫= _) => apply oblivious_bind; [|intros ?]
  | |- oblivious (match ?x with _ => _ end) => destruct x
  | |- oblivious (let _ := _ in _) => cbv zeta
  | |- _ => solve [auto with oblivious]
  end.

Section ObliviousCalls.

Lemma oblivious_OpenFile p flags : oblivious (OpenFile p flags).
Proof. unfold OpenFile. repeat oblivious_step. Qed.

Lemma oblivious_Open d : oblivious (Open d).
Proof. unfold Open. repeat oblivious_step. Qed.

Lemma oblivious_File_Write f b : oblivious (File_Write f b).
Proof. unfold File_Write. repeat oblivious_step. Qed.

Lemma oblivious_File_Read f n : oblivious (File_Read f n).
Proof. unfold File_Read. repeat oblivious_step. Qed.

Lemma oblivious_File_Sync f : oblivious (File_Sync f).
Proof. unfold File_Sync. repeat oblivious_step. Qed.

Lemma oblivious_File_Close f : oblivious (File_Close f).
Proof. unfold File_Close. repeat oblivious_step. Qed.

Lemma oblivious_Rename old new : oblivious (Rename old new).
Proof. unfold Rename. repeat oblivious_step. Qed.

Hint Resolve oblivious_OpenFile oblivious_Open oblivious_File_Write
  oblivious_File_Read oblivious_File_Sync oblivious_File_Close
  oblivious_Rename : oblivious.

Lemma oblivious_syncDir path : oblivious (syncDir path).
Proof. unfold syncDir. repeat oblivious_step. Qed.

Hint Resolve oblivious_syncDir : oblivious.

Lemma oblivious_checkGoqueType dataDir gt : oblivious (checkGoqueType dataDir gt).
Proof. unfold checkGoqueType. repeat oblivious_step. Qed.

(** The calls of a run are what it added to the log. *)
Lemma calls_made_run dataDir gt w r w' (t : list event) :
  checkGoqueType dataDir gt w = (r, w') ->
  w_trace w' = (w_trace w ++ t)%list ->
  calls_made (checkGoqueType dataDir gt) w = t.
Proof.
  intros Hrun Ht. rewrite oblivious_checkGoqueType in Hrun.
  unfold calls_made. destruct (checkGoqueType dataDir gt (fresh_log w)) as [a w1].
  injection Hrun as _ <-. cbn in *. by apply app_inv_head in Ht.
Qed.

End ObliviousCalls.

(** ** First use of a directory *)

Section Creation.

(** A call that returns nil where there was no marker has taken the
    whole creation path: the marker is the staging file with the tag
    written over its first byte, and the staging file is gone. *)
Lemma creation_succeeds dataDir gt w b w' :
  marker dataDir w = None ->
  checkGoqueType dataDir gt w = ((b, None), w') ->
  b = true /\
  marker dataDir w' = Some (gt :: drop 1 (default [] (staging dataDir w))) /\
  staging dataDir w' = None /\
  exists serr cerr,
    w_trace w' = (w_trace w ++ creation_calls dataDir gt serr cerr)%list.
Proof.
  unfold marker, staging, creation_calls. destruct w as [fs plan tr].
  cbn. intros Hm. unfold_calls. cbn.
  destruct (fs !! dataDir) as [d|] eqn:Hd; cbn in Hm |- *.
  2:{ run_paths; congruence. }
  rewrite Hm.
  run_paths; try congruence.
  all: intros [= <- <-]; simplify_eq; norm_fs; rewrite <- ?app_assoc.
  all: repeat match goal with H : _ !! _ = _ |- _ => rewrite H end; cbn.
  all: repeat split; eauto; by do 2 norm_fs.
Qed.

End Creation.

Section Staging.

(** A staging file of at most one byte stays one: the calls leave behind
    no longer staging file than they found. *)
Lemma staging_stays_short dataDir gt w :
  length (default [] (staging dataDir w)) <= 1 ->
  length (default [] (staging dataDir (checkGoqueType dataDir gt w).2)) <= 1.
Proof.
  unfold staging. destruct w as [fs plan tr]. cbn. intros Hlen.
  unfold_calls. cbn.
  destruct (fs !! dataDir) as [d|] eqn:Hd; cbn in Hlen |- *.
  2:{ run_paths; by rewrite ?Hd. }
  run_paths.
  all: repeat match goal with
         | H : ?m !! ?k = _ |- context [?m !! ?k] => rewrite H
         | H : ?m !! ?k = _, H' : context [?m !! ?k] |- _ => rewrite H in H'
         end.
  all: do 2 norm_fs; cbn in *; rewrite ?length_drop; try lia.
Qed.

End Staging.

(** C2, as the claim has it, fails: a staging file left in the directory is
    opened without being truncated, so what it held after the first byte
    ends up in the marker. *)
Lemma stale_staging_bytes_reach_marker :
  let w := boot {[ "D" := {[ "GOQUE.tmp" := [x09; x09] ]} ]} [] in
  marker "D" w = None /\
  (checkGoqueType "D" goqueQueue w).1 = (true, None) /\
  marker "D" (checkGoqueType "D" goqueQueue w).2 = Some [x01; x09] /\
  marker "D" (checkGoqueType "D" goqueQueue w).2 <> Some [x01].
Proof. repeat split; try reflexivity. vm_compute. discriminate. Qed.

(** C2, amended. Where there is no marker, a call that returns a nil error
    returns [true] and leaves a marker whose first byte is the tag of the
    requested variant, followed by what a staging file found in the
    directory held after its first byte: the marker is exactly the one tag
    byte when there was no staging file or one of at most one byte. *)
Theorem first_use_writes_tag dataDir gt w b w' :
  marker dataDir w = None ->
  checkGoqueType dataDir gt w = ((b, None), w') ->
  b = true /\
  marker dataDir w' = Some (gt :: drop 1 (default [] (staging dataDir w))) /\
  (length (default [] (staging dataDir w)) <= 1 -> marker dataDir w' = Some [gt]).
Proof.
  intros Hm Hrun.
  destruct (creation_succeeds _ _ _ _ _ Hm Hrun) as (-> & Hmarker & _).
  repeat split; [done|]. intros Hlen. rewrite Hmarker.
  by rewrite drop_ge.
Qed.

Lemma first_use_writes_tag_witness :
  let w := boot {[ "D" := ∅ ]} [] in
  marker "D" (checkGoqueType "D" goquePriorityQueue w).2 = Some [x02].
Proof.
  intros w.
  refine (proj2 (proj2 (first_use_writes_tag "D" goquePriorityQueue w true
            (checkGoqueType "D" goquePriorityQueue w).2 _ _)) _).
  - reflexivity.
  - reflexivity.
  - vm_compute. lia.
Defined.

Section NoValidation.

(** Where there is no marker, the result does not depend on the value that
    is requested. *)
Lemma result_whatever_the_tag dataDir (v v' : byte) w :
  marker dataDir w = None ->
  (checkGoqueType dataDir v' w).1 = (checkGoqueType dataDir v w).1.
Proof.
  unfold marker. destruct w as [fs plan tr]. cbn. intros Hm.
  unfold_calls. cbn.
  destruct (fs !! dataDir) as [d|] eqn:Hd; cbn in Hm |- *.
  2:{ run_paths; done. }
  rewrite Hm. run_paths; done.
Qed.

End NoValidation.

(** C10, as the claim has it, fails as C2 does: on a directory with no
    marker but a longer staging file, the raw byte is written over the
    first byte only. *)
Lemma raw_tag_over_stale_staging :
  let w := boot {[ "D" := {[ "GOQUE.tmp" := [x09; x0a; x0b] ]} ]} [] in
  marker "D" w = None /\
  (checkGoqueType "D" xc8 w).1 = (true, None) /\
  marker "D" (checkGoqueType "D" xc8 w).2 = Some [xc8; x0a; x0b] /\
  marker "D" (checkGoqueType "D" xc8 w).2 <> Some [xc8].
Proof. repeat split; try reflexivity. vm_compute. discriminate. Qed.

(** C10, amended. The creation path does not validate the requested value:
    where there is no marker, the result of the call, [(true, nil)] or the
    error, is the same for every byte value, inside 0..3 or not.  A call
    that returns a nil error returns [true], has written the one raw byte
    [v] and nothing else, and leaves a marker whose first byte is [v],
    followed by what a staging file found in the directory held after its
    first byte: exactly [v] when there was none or one of at most one
    byte. *)
Theorem raw_tag_written_unvalidated dataDir (v : byte) w :
  marker dataDir w = None ->
  (forall v' : byte,
     (checkGoqueType dataDir v' w).1 = (checkGoqueType dataDir v w).1) /\
  (forall b w',
     checkGoqueType dataDir v w = ((b, None), w') ->
     b = true /\
     marker dataDir w' = Some (v :: drop 1 (default [] (staging dataDir w))) /\
     (length (default [] (staging dataDir w)) <= 1 ->
      marker dataDir w' = Some [v]) /\
     forall f bytes e,
       (CWrite f bytes, e) ∈ calls_made (checkGoqueType dataDir v) w ->
       f = FileOf (Join dataDir "GOQUE.tmp") [O_RDWR; O_CREATE] /\
       bytes = [v] /\ e = None).
Proof.
  intros Hm. split; [intros v'; by apply result_whatever_the_tag|].
  intros b w' Hrun.
  destruct (creation_succeeds _ _ _ _ _ Hm Hrun)
    as (-> & Hmarker & _ & serr & cerr & Htrace).
  split; [done|]. split; [done|]. split.
  - intros Hlen. rewrite Hmarker. by rewrite drop_ge.
  - intros f bytes e Hin.
    rewrite (calls_made_run _ _ _ _ _ _ Hrun Htrace) in Hin.
    unfold creation_calls in Hin. cbv zeta in Hin.
    rewrite !elem_of_cons, elem_of_nil in Hin.
    repeat (destruct Hin as [Hin|Hin]; [by simplify_eq|]). done.
Qed.

Lemma raw_tag_written_unvalidated_witness :
  let w := boot {[ "D" := ∅ ]} [] in
  (checkGoqueType "D" xff w).1 = (true, None) /\
  (checkGoqueType "D" goqueQueue w).1 = (true, None) /\
  (checkGoqueType "D" x2a w).1 = (true, None) /\
  marker "D" (checkGoqueType "D" xff w).2 = Some [xff].
Proof.
  intros w.
  assert (marker "D" w = None) as Hm by reflexivity.
  destruct (raw_tag_written_unvalidated "D" xff w Hm) as [Hany Hdone].
  split; [reflexivity|]. split; [|split].
  - rewrite (Hany goqueQueue). reflexivity.
  - rewrite (Hany x2a). reflexivity.
  - refine (proj1 (proj2 (proj2 (Hdone true (checkGoqueType "D" xff w).2 _))) _).
    + reflexivity.
    + vm_compute. lia.
Defined.

(** ** A creation that fails *)

Section FailedCreation.

Lemma same_but_staging_insert (fs : gmap string dir) dataDir (d d' : dir) :
  fs !! dataDir = Some d ->
  (forall name : string, name <> "GOQUE.tmp" -> d' !! name = d !! name) ->
  forall d0 name : string,
    (d0, name) <> (dataDir, "GOQUE.tmp") ->
    <[dataDir := d']> fs !! d0 ≫= (.!! name) = fs !! d0 ≫= (.!! name).
Proof.
  intros Hd Hsame d0 name Hne. destruct (decide (d0 = dataDir)) as [->|].
  - rewrite lookup_insert_eq, Hd. cbn. apply Hsame. congruence.
  - by rewrite lookup_insert_ne.
Qed.

(** A failed call where there was no marker: either no rename went
    through, and then there is still no marker and nothing but the
    staging file has changed; or the rename went through and the error is
    that of opening or flushing the directory. *)
Lemma creation_fails dataDir gt w b e w' :
  marker dataDir w = None ->
  checkGoqueType dataDir gt w = ((b, Some e), w') ->
  b = false /\
  exists t : list event,
    w_trace w' = (w_trace w ++ t)%list /\
    if renamed t
    then marker dataDir w' = Some (gt :: drop 1 (default [] (staging dataDir w))) /\
         staging dataDir w' = None /\
         ((COpen dataDir, Some e) ∈ t \/ (CSync (DirOf dataDir), Some e) ∈ t)
    else marker dataDir w' = None /\ same_but_staging dataDir w w'.
Proof.
  unfold marker, staging, same_but_staging. destruct w as [fs plan tr].
  cbn. intros Hm. unfold_calls. cbn.
  destruct (fs !! dataDir) as [d|] eqn:Hd; cbn in Hm |- *.
  2:{ run_paths; try congruence.
      all: intros [= <- <- <-]; simplify_eq; (split; [done|]).
      all: eexists; (split; [rewrite <- ?app_assoc; reflexivity|]); cbn.
      all: repeat match goal with H : _ !! _ = _ |- _ => rewrite H end; done. }
  rewrite Hm.
  run_paths; try congruence.
  all: intros [= <- <- <-]; simplify_eq; (split; [done|]).
  all: eexists; (split; [rewrite <- ?app_assoc; reflexivity|]); cbn.
  all: repeat match goal with H : _ !! _ = _ |- _ => rewrite H end; cbn.
  all: rewrite ?insert_insert_eq.
  all: split; [by do 3 norm_fs|].
  all: try (split; [by do 3 norm_fs|]).
  all: try (intros d0 name Hne;
            first [done
                  |by apply (same_but_staging_insert fs dataDir d);
                     [|intros; rewrite !lookup_insert_ne by done|]]).
  all: first [left; by eapply (list_elem_of_lookup_2 _ 6)
             |right; by eapply (list_elem_of_lookup_2 _ 7)].
Qed.

(** The error of a failed call where there was no marker is that of the
    call that failed first: of opening the marker, when that is not a
    not-exist error; else of the first call to fail after that open, a step
    of the creation up to the rename when no rename went through, the
    opening or the flush of the directory when one did. *)
Lemma failure_is_first_error dataDir gt w b e w' :
  marker dataDir w = None ->
  checkGoqueType dataDir gt w = ((b, Some e), w') ->
  exists t : list event,
    w_trace w' = (w_trace w ++ t)%list /\
    if renamed t
    then first_error (tail t) = Some (COpen dataDir, e) \/
         first_error (tail t) = Some (CSync (DirOf dataDir), e)
    else (t = [(COpenFile (Join dataDir "GOQUE") [O_RDONLY], Some e)] /\
          IsNotExist (Some e) = false) \/
         ((exists e0, head t = Some (COpenFile (Join dataDir "GOQUE") [O_RDONLY], Some e0) /\
                      IsNotExist (Some e0) = true) /\
          exists c, c ∈ creation_steps dataDir gt /\
                    first_error (tail t) = Some (c, e)).
Proof.
  unfold marker. destruct w as [fs plan tr].
  cbn. intros Hm. unfold_calls. cbn.
  destruct (fs !! dataDir) as [d|] eqn:Hd; cbn in Hm |- *; rewrite ?Hm.
  all: run_paths; try congruence.
  all: intros [= <- <- <-].
  all: eexists; (split; [rewrite <- ?app_assoc; reflexivity|]); cbn.
  all: first
         [ by left; split; [|apply IsNotExist_fault]
         | by left
         | by right
         | right; split; [by eexists|];
           eexists; split; last reflexivity;
           unfold creation_steps; cbn; rewrite !elem_of_cons; tauto ].
Qed.

End FailedCreation.

(** C7, as the claim has it, fails: when the directory sync fails the call
    returns the error, but the rename before it has already put the marker
    under its canonical name. *)
Lemma marker_in_place_when_dir_sync_fails :
  let eio := PathError "sync" "D" (SysErrno EIO) in
  let w := boot {[ "D" := ∅ ]} (replicate 7 None ++ [Some (Fault eio eq_refl)]) in
  marker "D" w = None /\
  (checkGoqueType "D" goqueStack w).1 = (false, Some eio) /\
  marker "D" (checkGoqueType "D" goqueStack w).2 = Some [x00].
Proof. repeat split; reflexivity. Qed.

(** C7, amended. A failed call where there was no marker returns [false]
    with the error of the step that failed: the first call to fail (a
    not-exist failure of opening the marker apart, which is what leads into
    the creation).  If the failure is at or before the rename (creating,
    writing, flushing, closing or renaming the staging file), the error is
    that step's, there is still no file under the name GOQUE, and no entry
    but the staging file has changed.  If the rename went through, the
    error is that of opening or flushing the directory, and the marker is
    already in place. *)
Theorem failed_creation_leaves_no_marker dataDir gt w b e w' :
  marker dataDir w = None ->
  checkGoqueType dataDir gt w = ((b, Some e), w') ->
  let t := calls_made (checkGoqueType dataDir gt) w in
  let path := Join dataDir "GOQUE" in
  b = false /\
  (renamed t = false ->
     marker dataDir w' = None /\ same_but_staging dataDir w w' /\
     ((t = [(COpenFile path [O_RDONLY], Some e)] /\ IsNotExist (Some e) = false) \/
      ((exists e0, head t = Some (COpenFile path [O_RDONLY], Some e0) /\
                   IsNotExist (Some e0) = true) /\
       exists c, c ∈ creation_steps dataDir gt /\
                 first_error (tail t) = Some (c, e)))) /\
  (renamed t = true ->
     ((COpen dataDir, Some e) ∈ t \/ (CSync (DirOf dataDir), Some e) ∈ t) /\
     (first_error (tail t) = Some (COpen dataDir, e) \/
      first_error (tail t) = Some (CSync (DirOf dataDir), e)) /\
     marker dataDir w' = Some (gt :: drop 1 (default [] (staging dataDir w))) /\
     staging dataDir w' = None).
Proof.
  intros Hm Hrun.
  destruct (creation_fails _ _ _ _ _ _ Hm Hrun) as (-> & t & Htrace & Ht).
  destruct (failure_is_first_error _ _ _ _ _ _ Hm Hrun) as (t' & Htrace' & Ht').
  assert (t' = t) as -> by (rewrite Htrace in Htrace'; by apply app_inv_head in Htrace').
  cbv zeta. rewrite (calls_made_run _ _ _ _ _ _ Hrun Htrace).
  destruct (renamed t); intuition (try done).
Qed.

Lemma failed_creation_leaves_no_marker_witness :
  let w := boot {[ "D" := ∅ ]} [None; None; Some (Fault (SysErrno ENOSPC) eq_refl)] in
  let f := FileOf (Join "D" "GOQUE.tmp") [O_RDWR; O_CREATE] in
  (checkGoqueType "D" goqueQueue w).1 = (false, Some (SysErrno ENOSPC)) /\
  marker "D" (checkGoqueType "D" goqueQueue w).2 = None /\
  first_error (tail (calls_made (checkGoqueType "D" goqueQueue) w))
    = Some (CWrite f [x01], SysErrno ENOSPC).
Proof.
  intros w f.
  assert (marker "D" w = None) as Hm by reflexivity.
  assert (checkGoqueType "D" goqueQueue w =
            ((false, Some (SysErrno ENOSPC)), (checkGoqueType "D" goqueQueue w).2))
    as Hrun by reflexivity.
  destruct (failed_creation_leaves_no_marker _ _ _ _ _ _ Hm Hrun) as (_ & Hno & _).
  destruct (Hno eq_refl) as (Hmarker & _ & [[Hhard _] | (_ & c & _ & Hc)]).
  - discriminate Hhard.
  - split; [reflexivity|]. split; [exact Hmarker|]. reflexivity.
Defined.

(** ** The order of the creation path *)

(** A list of steps against the order of the source. *)
Ltac solve_sublist :=
  repeat first [apply sublist_nil_l | apply sublist_skip | apply sublist_cons].

Section Order.

(** What a run where there was no marker does to the disk, step by step:
    the steps attempted are in the order of the source; flush, rename and
    directory sync are attempted only after every step before them went
    through; the staging file is closed after its flush went through, or
    right after the write or flush that failed, and then nothing follows;
    and a run that returns nil has attempted all five. *)
Lemma creation_in_order dataDir gt w r w' :
  marker dataDir w = None ->
  checkGoqueType dataDir gt w = (r, w') ->
  exists t : list event,
    w_trace w' = (w_trace w ++ t)%list /\
    Forall (fun ev : event =>
              forall s, step_of ev.1 = Some s -> ev.1 = step_call dataDir gt s) t /\
    (effects t).*1 `sublist_of` creation_order /\
    (forall s, s <> CloseTemp -> attempted s (effects t) = true ->
       before s (effects t) = predecessors_done s) /\
    (attempted CloseTemp (effects t) = true ->
       before CloseTemp (effects t) = predecessors_done CloseTemp \/
       (before CloseTemp (effects t) = [(WriteByte, false)] \/
        before CloseTemp (effects t) = [(WriteByte, true); (FlushTemp, false)]) /\
       length (effects t) = S (length (before CloseTemp (effects t)))) /\
    (r.2 = None ->
       (effects t).*1 = creation_order /\
       before SyncDataDir (effects t) = predecessors_done SyncDataDir).
Proof.
  unfold marker. destruct w as [fs plan tr].
  cbn. intros Hm. unfold_calls. cbn.
  destruct (fs !! dataDir) as [d|] eqn:Hd; cbn in Hm |- *.
  all: run_paths.
  all: intros [= <- <-].
  all: eexists; (split; [rewrite <- ?app_assoc; reflexivity|]).
  all: split;
    [cbn [app]; repeat constructor; cbn [fst]; intros s Hs; vm_compute in Hs;
     first [discriminate Hs | by injection Hs as <-]|].
  all: split; [vm_compute; solve_sublist|].
  all: split; [intros [] Hs; vm_compute; congruence|].
  all: split;
    [vm_compute; first [congruence | by intros _; left | by intros _; right; eauto]|].
  all: cbn [snd]; try congruence.
  all: intros _; vm_compute; done.
Qed.

End Order.

(** C9. Where there is no marker, the only writes, flushes, closes of a
    staging file, renames and directory flushes a call makes are these
    five: the one tag byte written to the staging file of the data
    directory, that file flushed, that file closed, that file renamed onto
    the GOQUE path of the data directory, the data directory flushed.  They
    come in this order, none twice and none out of place.  The flush is
    attempted only after the write went
    through, the rename only after write, flush and close went through, the
    directory sync only after the rename went through as well: no step
    before them is left out.  The staging file is closed after its flush,
    or right after a write or flush that failed, where the call gives up.
    A call that returns a nil error has gone through all five steps. *)
Theorem creation_effects_in_order dataDir gt w r w' :
  marker dataDir w = None ->
  checkGoqueType dataDir gt w = (r, w') ->
  let t := calls_made (checkGoqueType dataDir gt) w in
  let effs := effects t in
  Forall (fun ev : event =>
            forall s, step_of ev.1 = Some s -> ev.1 = step_call dataDir gt s) t /\
  effs.*1 `sublist_of` creation_order /\
  (forall s, s <> CloseTemp -> attempted s effs = true ->
     before s effs = predecessors_done s) /\
  (attempted CloseTemp effs = true ->
     before CloseTemp effs = predecessors_done CloseTemp \/
     (before CloseTemp effs = [(WriteByte, false)] \/
      before CloseTemp effs = [(WriteByte, true); (FlushTemp, false)]) /\
     length effs = S (length (before CloseTemp effs))) /\
  (r.2 = None ->
     effs.*1 = creation_order /\
     before SyncDataDir effs = predecessors_done SyncDataDir).
Proof.
  intros Hm Hrun.
  destruct (creation_in_order _ _ _ _ _ Hm Hrun) as (t & Htrace & Ht).
  cbv zeta. by rewrite (calls_made_run _ _ _ _ _ _ Hrun Htrace).
Qed.

Lemma creation_effects_in_order_witness :
  let w := boot {[ "D" := ∅ ]} [] in
  let t := calls_made (checkGoqueType "D" goqueQueue) w in
  let f := FileOf (Join "D" "GOQUE.tmp") [O_RDWR; O_CREATE] in
  effects t =
    [(WriteByte, true); (FlushTemp, true); (CloseTemp, true);
     (RenameTemp, true); (SyncDataDir, true)] /\
  (CWrite f [x01], None) ∈ t /\
  (CRename (Join "D" "GOQUE.tmp") (Join "D" "GOQUE"), None) ∈ t /\
  Forall (fun ev : event =>
            forall s, step_of ev.1 = Some s -> ev.1 = step_call "D" goqueQueue s) t /\
  (effects t).*1 `sublist_of` creation_order.
Proof.
  intros w t f. split; [reflexivity|].
  split; [by apply (list_elem_of_lookup_2 _ 2)|].
  split; [by apply (list_elem_of_lookup_2 _ 5)|].
  destruct (creation_effects_in_order "D" goqueQueue w
              (checkGoqueType "D" goqueQueue w).1
              (checkGoqueType "D" goqueQueue w).2) as (Hcalls & Horder & _).
  - reflexivity.
  - reflexivity.
  - split; [exact Hcalls|exact Horder].
Defined.

(** ** Handles are released *)

(** Walks a log, one call at a time. *)
Ltac solve_held :=
  repeat first
    [ apply held_end
    | apply held_OpenFile
    | apply held_OpenFile_failed
    | apply held_Open
    | apply held_Open_failed
    | apply held_Close
    | apply held_Write; [by left|]
    | apply held_Read; [by left|]
    | apply held_Sync; [by left|]
    | apply held_Rename; [by intros ? ?%elem_of_nil|] ].

(** X9. Whatever the state and the faults, [syncDir] makes either one call,
    the open of the directory at [path] that failed, and nothing after it;
    or three: that open, the flush of the handle it got, and the close of
    that handle, whatever the flush returned.  So it syncs only the handle
    it opened and closes it exactly once before it returns. *)
Theorem syncDir_releases_handle (path : string) (w : world) :
  let t := calls_made (syncDir path) w in
  held [] t /\
  ((exists e, t = [(COpen path, Some e)] /\ (syncDir path w).1 = Some e) \/
   (exists serr cerr,
      t = [(COpen path, None); (CSync (DirOf path), serr);
           (CClose (DirOf path), cerr)])).
Proof.
  destruct w as [fs plan tr]. unfold_calls.
  run_paths; (split; [solve_held|]).
  all: first [by left; eexists | by right; eexists _, _].
Qed.

(** X8. Whatever the state and the faults, [checkGoqueType] reads, writes
    and syncs only files it holds open, closes every file and directory it
    opened exactly once, on the failing paths too, renames the staging file
    only after closing it, and returns with nothing left open. *)
Theorem checkGoqueType_releases_handles dataDir gt (w : world) :
  held [] (calls_made (checkGoqueType dataDir gt) w).
Proof.
  destruct w as [fs plan tr]. unfold_calls.
  run_paths; solve_held.
Qed.

(** ** First use goes through *)

Section Progress.

(** A path that [filepath.Clean] leaves as it is, is not empty. *)
Lemma cleaned_not_empty (name : string) : Clean name = name -> name <> "".
Proof. intros H ->. vm_compute in H. discriminate. Qed.

(** With the directory there, no marker, no fault up to the rename and the
    opening of the directory, and a directory flush that goes through or
    is not supported, the call takes the whole creation path. *)
Lemma creation_goes_through dataDir gt w d :
  dataDir <> "" ->
  w_fs w !! dataDir = Some d ->
  d !! "GOQUE" = None ->
  (forall i, i < 7 -> fault_at i w = None) ->
  (fault_at 7 w = None \/
   exists x, fault_at 7 w = Some x /\ unsupported (fault_error x)) ->
  (checkGoqueType dataDir gt w).1 = (true, None).
Proof.
  destruct w as [fs plan tr]. unfold fault_at. cbn.
  intros Hne%String.eqb_neq Hd Hm Hno Hsync.
  pose proof (Hno 0 ltac:(lia)) as H0. pose proof (Hno 1 ltac:(lia)) as H1.
  pose proof (Hno 2 ltac:(lia)) as H2. pose proof (Hno 3 ltac:(lia)) as H3.
  pose proof (Hno 4 ltac:(lia)) as H4. pose proof (Hno 5 ltac:(lia)) as H5.
  pose proof (Hno 6 ltac:(lia)) as H6. cbn in H0, H1, H2, H3, H4, H5, H6.
  clear Hno. unfold_calls. cbn. rewrite H0, Hd. cbn. rewrite Hm. norm_fs.
  rewrite H1, Hd. cbn.
  destruct (d !! "GOQUE.tmp") as [old|] eqn:Hold; norm_fs.
  all: rewrite H2; norm_fs; rewrite ?Hd; norm_fs; rewrite ?Hold; norm_fs.
  all: rewrite H3; norm_fs; rewrite H4; norm_fs; rewrite H5; norm_fs.
  all: rewrite H6; norm_fs; rewrite Hne; norm_fs.
  all: destruct Hsync as [-> | (x & -> & Hx%unsupported_tests)]; cbn; [done|].
  all: by destruct (is_ErrInvalid _), (is_SyscallError_EINVAL _),
         (is_PathError_EINVAL _).
Qed.

End Progress.

(** ** What a call leaves alone *)

Section Frame.

(** Of all the entries of all the directories, a call changes at most the
    marker and the staging file of its data directory; and it neither makes
    nor removes a directory. *)
Lemma only_marker_and_staging dataDir gt w :
  let w' := (checkGoqueType dataDir gt w).2 in
  (forall d0 name : string,
     d0 <> dataDir \/ (name <> "GOQUE" /\ name <> "GOQUE.tmp") ->
     w_fs w' !! d0 ≫= (.!! name) = w_fs w !! d0 ≫= (.!! name)) /\
  (forall d0 : string, is_Some (w_fs w' !! d0) <-> is_Some (w_fs w !! d0)).
Proof.
  destruct w as [fs plan tr]. unfold_calls. cbn.
  destruct (fs !! dataDir) as [d|] eqn:Hd.
  2:{ run_paths; by rewrite ?Hd. }
  run_paths.
  all: simplify_eq.
  all: split; [intros d0 name Hc|intros d0].
  all: destruct (decide (d0 = dataDir)) as [->|Hne].
  all: try (destruct Hc as [?|[? ?]]; [done|]).
  all: by simplify_map_eq.
Qed.

End Frame.

(** X7. A call changes no entry but the marker and the staging file of its
    data directory, whatever the faults and whether it fails or not: every
    other entry of that directory and every entry of every other directory
    holds what it held, and no directory appears or disappears. *)
Theorem call_touches_only_marker_and_staging dataDir gt w :
  let w' := (checkGoqueType dataDir gt w).2 in
  (forall d0 name : string,
     d0 <> dataDir \/ (name <> "GOQUE" /\ name <> "GOQUE.tmp") ->
     w_fs w' !! d0 ≫= (.!! name) = w_fs w !! d0 ≫= (.!! name)) /\
  (forall d0 : string, is_Some (w_fs w' !! d0) <-> is_Some (w_fs w !! d0)).
Proof. apply only_marker_and_staging. Qed.

(** X1. First use succeeds when nothing fails: for a data directory given
    by a cleaned path (one that [filepath.Clean] leaves as it is, so not
    the empty path, which [os.Open] cannot open), in a directory that
    exists and has no marker, with no fault on the seven calls up to the
    opening of the directory and a directory flush that goes through or
    reports that it is not supported, the call returns [(true, nil)], the
    marker is in place and the staging file is gone. *)
Theorem first_use_goes_through dataDir gt w :
  Clean dataDir = dataDir ->
  is_Some (w_fs w !! dataDir) ->
  marker dataDir w = None ->
  (forall i, i < 7 -> fault_at i w = None) ->
  (fault_at 7 w = None \/
   exists x, fault_at 7 w = Some x /\ unsupported (fault_error x)) ->
  (checkGoqueType dataDir gt w).1 = (true, None) /\
  marker dataDir (checkGoqueType dataDir gt w).2
    = Some (gt :: drop 1 (default [] (staging dataDir w))) /\
  staging dataDir (checkGoqueType dataDir gt w).2 = None.
Proof.
  intros Hclean%cleaned_not_empty [d Hd] Hm Hno Hsync.
  destruct (marker_None _ _ Hm) as [Hnone | (d' & Hd' & Hg)]; [congruence|].
  pose proof (creation_goes_through dataDir gt w d' Hclean Hd' Hg Hno Hsync) as Hr.
  destruct (checkGoqueType dataDir gt w) as [r w'] eqn:Hrun. cbn in *. subst r.
  destruct (creation_succeeds _ _ _ _ _ Hm Hrun) as (_ & Hmk & Hst & _).
  done.
Qed.

Lemma first_use_goes_through_witness :
  let einval := PathError "sync" "D" (SysErrno EINVAL) in
  let w := boot {[ "D" := ∅ ]} (replicate 7 None ++ [Some (Fault einval eq_refl)]) in
  (checkGoqueType "D" goqueQueue w).1 = (true, None) /\
  marker "D" (checkGoqueType "D" goqueQueue w).2 = Some [x01].
Proof.
  intros einval w.
  destruct (first_use_goes_through "D" goqueQueue w) as (Hr & Hm & _).
  - reflexivity.
  - by eexists.
  - reflexivity.
  - intros i Hi. do 7 (destruct i as [|i]; [reflexivity|]). lia.
  - right. eexists. split; [reflexivity|]. right; right. by eexists _, _.
  - split; [exact Hr|exact Hm].
Defined.

(** X2. A directory tagged by a first use with [gt] and then opened with
    [gt'], the open and the read going through, is reported compatible
    exactly when [gt'] equals [gt] or the two are stack and queue; the
    result is that of the comparison with a nil error, and the second call
    changes no entry: the tag written first stays. *)
Theorem created_then_reopened dataDir gt gt' w b w1 :
  marker dataDir w = None ->
  checkGoqueType dataDir gt w = ((b, None), w1) ->
  fault_at 0 w1 = None -> fault_at 1 w1 = None ->
  (checkGoqueType dataDir gt' w1).1 = (bool_decide (compatible gt gt'), None) /\
  w_fs (checkGoqueType dataDir gt' w1).2 = w_fs w1.
Proof.
  intros Hm Hrun H0 H1.
  destruct (creation_succeeds _ _ _ _ _ Hm Hrun) as (_ & Hmk & _).
  apply marker_Some in Hmk as (d & Hd & Hg).
  destruct w1 as [fs plan tr]. unfold fault_at in *. cbn in *.
  rewrite !(read_path_run _ _ _ _ _ _ _ Hd Hg), H0, H1. done.
Qed.

Lemma created_then_reopened_witness :
  let w := boot {[ "D" := ∅ ]} [] in
  let w1 := (checkGoqueType "D" goqueStack w).2 in
  (checkGoqueType "D" goqueQueue w1).1 = (true, None) /\
  (checkGoqueType "D" goquePrefixQueue w1).1 = (false, None).
Proof.
  intros w w1. split.
  - refine (proj1 (created_then_reopened "D" goqueStack goqueQueue w true w1 _ _ _ _));
      vm_compute; reflexivity.
  - refine (proj1 (created_then_reopened "D" goqueStack goquePrefixQueue w true w1 _ _ _ _));
      vm_compute; reflexivity.
Defined.

Section Verdict.

Lemma compatible_sym A B : compatible A B -> compatible B A.
Proof. unfold compatible. intuition congruence. Qed.

Lemma compatible_trans A B C : compatible A B -> compatible B C -> compatible A C.
Proof.
  unfold compatible, goqueStack, goqueQueue. intuition (try congruence).
Qed.

(** With a tag to read and no fault on the open and the read, the result
    is the comparison's. *)
Lemma read_verdict dataDir A rest gt w :
  marker dataDir w = Some (A :: rest) ->
  fault_at 0 w = None -> fault_at 1 w = None ->
  (checkGoqueType dataDir gt w).1 = (bool_decide (compatible A gt), None).
Proof.
  intros (d & Hd & Hg)%marker_Some H0 H1. destruct w as [fs plan tr].
  unfold fault_at in *. cbn in *.
  by rewrite (read_path_run _ _ _ _ _ _ _ Hd Hg), H0, H1.
Qed.

End Verdict.

(** X3. The verdict is symmetric: a directory tagged [A] opened as [B] gets
    the result that a directory tagged [B] opened as [A] gets, for all byte
    values, when the opens and reads go through. *)
Theorem verdict_symmetric dirA dirB (A B : goqueType) restA restB wA wB :
  marker dirA wA = Some (A :: restA) ->
  marker dirB wB = Some (B :: restB) ->
  fault_at 0 wA = None -> fault_at 1 wA = None ->
  fault_at 0 wB = None -> fault_at 1 wB = None ->
  (checkGoqueType dirA B wA).1 = (checkGoqueType dirB A wB).1.
Proof.
  intros HA HB HA0 HA1 HB0 HB1.
  rewrite (read_verdict _ _ _ _ _ HA HA0 HA1), (read_verdict _ _ _ _ _ HB HB0 HB1).
  f_equal. apply bool_decide_ext. split; apply compatible_sym.
Qed.

Lemma verdict_symmetric_witness :
  let wA := boot {[ "A" := {[ "GOQUE" := [x00] ]} ]} [] in
  let wB := boot {[ "B" := {[ "GOQUE" := [x01; x05] ]} ]} [] in
  (checkGoqueType "A" goqueQueue wA).1 = (checkGoqueType "B" goqueStack wB).1.
Proof.
  intros wA wB.
  apply (verdict_symmetric "A" "B" goqueStack goqueQueue [] [x05] wA wB);
    reflexivity.
Defined.

(** X4. The verdict is transitive: if a directory tagged [A] opens as [B]
    and one tagged [B] opens as [C], then one tagged [A] opens as [C], for
    all byte values, when the opens and reads go through.  With symmetry,
    the tags fall into classes: stack with queue, and every other value
    alone. *)
Theorem verdict_transitive d1 d2 d3 (A B C : goqueType) r1 r2 r3 w1 w2 w3 :
  marker d1 w1 = Some (A :: r1) ->
  marker d2 w2 = Some (B :: r2) ->
  marker d3 w3 = Some (A :: r3) ->
  fault_at 0 w1 = None -> fault_at 1 w1 = None ->
  fault_at 0 w2 = None -> fault_at 1 w2 = None ->
  fault_at 0 w3 = None -> fault_at 1 w3 = None ->
  (checkGoqueType d1 B w1).1 = (true, None) ->
  (checkGoqueType d2 C w2).1 = (true, None) ->
  (checkGoqueType d3 C w3).1 = (true, None).
Proof.
  intros H1 H2 H3 F10 F11 F20 F21 F30 F31.
  rewrite (read_verdict _ _ _ _ _ H1 F10 F11), (read_verdict _ _ _ _ _ H2 F20 F21),
    (read_verdict _ _ _ _ _ H3 F30 F31).
  intros [= HAB%bool_decide_eq_true] [= HBC%bool_decide_eq_true].
  f_equal. apply bool_decide_eq_true. by apply compatible_trans with B.
Qed.

Lemma verdict_transitive_witness :
  let w1 := boot {[ "D" := {[ "GOQUE" := [x00] ]} ]} [] in
  let w2 := boot {[ "E" := {[ "GOQUE" := [x01] ]} ]} [] in
  (checkGoqueType "D" goqueStack w1).1 = (true, None).
Proof.
  intros w1 w2.
  apply (verdict_transitive "D" "E" "D" goqueStack goqueQueue goqueStack
           [] [] [] w1 w2 w1); reflexivity.
Defined.

(** ** Edge cases and what the results mean *)

(** X5. A marker that cannot be read gives no verdict: when the marker file
    is empty the call returns [(false, io.EOF)], and when the read fails it
    returns [false] with the read's error; no tag is assumed in its
    place, and no entry changes. *)
Theorem unreadable_marker dataDir gt w content :
  marker dataDir w = Some content ->
  fault_at 0 w = None ->
  (content = [] -> fault_at 1 w = None ->
     (checkGoqueType dataDir gt w).1 = (false, Some EOF)) /\
  (forall x, fault_at 1 w = Some x ->
     (checkGoqueType dataDir gt w).1 = (false, Some (fault_error x))) /\
  w_fs (checkGoqueType dataDir gt w).2 = w_fs w.
Proof.
  intros (d & Hd & Hg)%marker_Some H0. destruct w as [fs plan tr].
  unfold fault_at in *. cbn in *.
  rewrite !(read_path_run _ _ _ _ _ _ _ Hd Hg), H0.
  repeat split.
  - by intros -> ->.
  - by intros x ->.
  - by repeat (split_match; cbn).
Qed.

Lemma unreadable_marker_witness :
  let w := boot {[ "D" := {[ "GOQUE" := [] ]} ]} [] in
  (checkGoqueType "D" goqueQueue w).1 = (false, Some EOF).
Proof.
  intros w.
  refine (proj1 (unreadable_marker "D" goqueQueue w [] _ _) _ _); reflexivity.
Defined.

(** X6. A data directory that does not exist is not created: for a data
    directory given by a cleaned path (one that [filepath.Clean] leaves as
    it is, so not the empty path, whose entries are those of the current
    directory), whatever the faults, the call returns [false] with a
    non-nil error and changes nothing; with no fault on its two opens, the
    error is the not-exist error of opening the staging file, under the
    path that [filepath.Join] gives it, and the call has made no other
    call. *)
Theorem missing_directory dataDir gt w :
  Clean dataDir = dataDir ->
  w_fs w !! dataDir = None ->
  (checkGoqueType dataDir gt w).1.1 = false /\
  is_Some (checkGoqueType dataDir gt w).1.2 /\
  w_fs (checkGoqueType dataDir gt w).2 = w_fs w /\
  (fault_at 0 w = None -> fault_at 1 w = None ->
   (checkGoqueType dataDir gt w).1.2
     = Some (not_found "open" (path_string (Join dataDir "GOQUE.tmp"))) /\
   length (calls_made (checkGoqueType dataDir gt) w) = 2).
Proof.
  destruct w as [fs plan tr]. unfold fault_at. cbn. intros _ Hd.
  unfold_calls. cbn. rewrite !Hd.
  destruct (hd None plan) as [x|]; norm_fs; [by repeat split|].
  rewrite !Hd.
  destruct (hd None (tail plan)) as [x|]; norm_fs; by repeat split.
Qed.

Lemma missing_directory_witness :
  let w := boot {[ "D" := ∅ ]} [] in
  (checkGoqueType "E" goqueStack w).1
    = (false, Some (PathError "open" "E/GOQUE.tmp" (SysErrno ENOENT))) /\
  w_fs (checkGoqueType "E" goqueStack w).2 = w_fs w.
Proof.
  intros w.
  destruct (missing_directory "E" goqueStack w) as (_ & _ & Hfs & _).
  - reflexivity.
  - reflexivity.
  - split; [reflexivity|exact Hfs].
Defined.

(** X10. [true] means tagged: whenever a call returns [true], on either
    path, the directory then has a marker whose first byte is compatible
    with the requested variant. *)
Theorem true_means_tagged dataDir gt w e w' :
  checkGoqueType dataDir gt w = ((true, e), w') ->
  exists A rest, marker dataDir w' = Some (A :: rest) /\ compatible A gt.
Proof.
  intros Hrun. destruct (marker dataDir w) as [content|] eqn:Hm.
  - apply marker_Some in Hm as (d & Hd & Hg). destruct w as [fs plan tr].
    cbn in Hd. rewrite (read_path_run _ _ _ _ _ _ _ Hd Hg) in Hrun.
    destruct (hd None plan); [done|]. destruct (hd None (tail plan)); [done|].
    destruct content as [|A rest]; [done|]. cbn in Hrun.
    injection Hrun as Hc%bool_decide_eq_true _ <-.
    exists A, rest. split; [|done]. unfold marker. cbn. by rewrite Hd.
  - destruct e as [e|].
    + by destruct (creation_fails _ _ _ _ _ _ Hm Hrun) as [? _].
    + destruct (creation_succeeds _ _ _ _ _ Hm Hrun) as (_ & Hmk & _).
      eexists _, _. split; [exact Hmk|]. by left.
Qed.

Lemma true_means_tagged_witness :
  let w := boot {[ "D" := ∅ ]} [] in
  exists A rest,
    marker "D" (checkGoqueType "D" goqueQueue w).2 = Some (A :: rest) /\
    compatible A goqueQueue.
Proof.
  intros w.
  apply (true_means_tagged "D" goqueQueue w None (checkGoqueType "D" goqueQueue w).2).
  vm_compute. reflexivity.
Defined.

(** X11. [(false, nil)] means a mismatch and nothing else: it is returned
    only when the directory already had a marker whose first byte is not
    compatible with the requested variant, and then no entry has changed.
    A first use never returns it. *)
Theorem false_nil_means_mismatch dataDir gt w w' :
  checkGoqueType dataDir gt w = ((false, None), w') ->
  exists A rest,
    marker dataDir w = Some (A :: rest) /\ ~ compatible A gt /\ w_fs w' = w_fs w.
Proof.
  intros Hrun. destruct (marker dataDir w) as [content|] eqn:Hm.
  - apply marker_Some in Hm as (d & Hd & Hg). destruct w as [fs plan tr].
    cbn in Hd. rewrite (read_path_run _ _ _ _ _ _ _ Hd Hg) in Hrun.
    destruct (hd None plan); [done|]. destruct (hd None (tail plan)); [done|].
    destruct content as [|A rest]; [done|]. cbn in Hrun.
    injection Hrun as Hc%bool_decide_eq_false <-.
    by exists A, rest.
  - by destruct (creation_succeeds _ _ _ _ _ Hm Hrun) as [? _].
Qed.

Lemma false_nil_means_mismatch_witness :
  let w := boot {[ "D" := {[ "GOQUE" := [x02] ]} ]} [] in
  exists A rest,
    marker "D" w = Some (A :: rest) /\ ~ compatible A goqueStack /\
    w_fs (checkGoqueType "D" goqueStack w).2 = w_fs w.
Proof.
  intros w.
  apply (false_nil_means_mismatch "D" goqueStack w (checkGoqueType "D" goqueStack w).2).
  vm_compute. reflexivity.
Defined.

(** X12. A failed first use can be retried: for a data directory given by
    a cleaned path (one that [filepath.Clean] leaves as it is, so not the
    empty path), in a directory that exists and whose staging file, if
    any, has at most one byte, after a call that
    left no marker behind (it failed before the rename went through), a
    further call that meets no fault returns [(true, nil)] and leaves the
    marker holding exactly the byte it was asked to write, whatever the
    staging file left by the failed call. *)
Theorem retry_after_failure dataDir gt gt' w :
  Clean dataDir = dataDir ->
  is_Some (w_fs w !! dataDir) ->
  length (default [] (staging dataDir w)) <= 1 ->
  let w1 := (checkGoqueType dataDir gt w).2 in
  marker dataDir w1 = None ->
  (forall i, i < 8 -> fault_at i w1 = None) ->
  (checkGoqueType dataDir gt' w1).1 = (true, None) /\
  marker dataDir (checkGoqueType dataDir gt' w1).2 = Some [gt'].
Proof.
  intros Hclean%cleaned_not_empty Hdir Hlen w1 Hm1 Hno.
  apply (only_marker_and_staging dataDir gt w) in Hdir. fold w1 in Hdir.
  pose proof (staging_stays_short dataDir gt w Hlen) as Hlen1. fold w1 in Hlen1.
  destruct Hdir as [d1 Hd1].
  destruct (marker_None _ _ Hm1) as [Hnone | (d' & Hd' & Hg)]; [congruence|].
  pose proof (creation_goes_through dataDir gt' w1 d' Hclean Hd' Hg
                (fun i Hi => Hno i ltac:(lia)) (or_introl (Hno 7 ltac:(lia)))) as Hr.
  destruct (checkGoqueType dataDir gt' w1) as [r w2] eqn:Hrun. cbn in *. subst r.
  destruct (creation_succeeds _ _ _ _ _ Hm1 Hrun) as (_ & Hmk & _).
  split; [done|]. rewrite Hmk. by rewrite drop_ge.
Qed.

Lemma retry_after_failure_witness :
  let enospc := PathError "write" "D/GOQUE.tmp" (SysErrno ENOSPC) in
  let w := boot {[ "D" := ∅ ]} [None; None; Some (Fault enospc eq_refl)] in
  let w1 := (checkGoqueType "D" goquePriorityQueue w).2 in
  (checkGoqueType "D" goquePriorityQueue w).1 = (false, Some enospc) /\
  staging "D" w1 = Some [] /\
  marker "D" (checkGoqueType "D" goqueStack w1).2 = Some [x00].
Proof.
  intros enospc w w1. split; [reflexivity|]. split; [reflexivity|].
  refine (proj2 (retry_after_failure "D" goquePriorityQueue goqueStack w _ _ _ _ _)).
  - reflexivity.
  - by eexists.
  - vm_compute. lia.
  - reflexivity.
  - intros i Hi. do 8 (destruct i as [|i]; [reflexivity|]). lia.
Defined.

(** X13. The staging file stays short: if the data directory has no staging
    file, or one of at most one byte, the same holds after a call, whatever
    the variant, the faults and the outcome.  Left to these calls, a
    staging file never holds more than the one tag byte. *)
Theorem staging_file_stays_short dataDir gt w :
  length (default [] (staging dataDir w)) <= 1 ->
  length (default [] (staging dataDir (checkGoqueType dataDir gt w).2)) <= 1.
Proof. apply staging_stays_short. Qed.

Lemma staging_file_stays_short_witness :
  let eio := PathError "close" "D/GOQUE.tmp" (SysErrno EIO) in
  let w := boot {[ "D" := {[ "GOQUE.tmp" := [x07] ]} ]}
             (replicate 4 None ++ [Some (Fault eio eq_refl)]) in
  staging "D" (checkGoqueType "D" goqueQueue w).2 = Some [x01] /\
  length (default [] (staging "D" (checkGoqueType "D" goqueQueue w).2)) <= 1.
Proof.
  intros eio w. split; [reflexivity|].
  apply (staging_file_stays_short "D" goqueQueue w). vm_compute. lia.
Defined.

(** ** Scenarios *)

(** A new directory is tagged as a queue, reopened as a stack, refused to a
    priority queue; once the marker is deleted it is tagged anew. *)
Example queue_stack_priority_scenario :
  let w0 := boot {[ "D" := ∅ ]} [] in
  let '(r1, w1) := checkGoqueType "D" goqueQueue w0 in
  let '(r2, w2) := checkGoqueType "D" goqueStack w1 in
  let '(r3, w3) := checkGoqueType "D" goquePriorityQueue w2 in
  let w4 := World (alter (delete "GOQUE") "D" (w_fs w3)) (w_plan w3) (w_trace w3) in
  let '(r5, w5) := checkGoqueType "D" goquePriorityQueue w4 in
  r1 = (true, None) /\ marker "D" w1 = Some [x01] /\
  r2 = (true, None) /\ r3 = (false, None) /\ w_fs w3 = w_fs w1 /\
  r5 = (true, None) /\ marker "D" w5 = Some [x02].
Proof. vm_compute. repeat split. Qed.

(** A creation interrupted by a failing flush leaves its staging file; the
    next call goes through all the same. *)
Example retry_after_failed_flush :
  let eio := PathError "sync" "D/GOQUE.tmp" (SysErrno EIO) in
  let w0 := boot {[ "D" := ∅ ]} [None; None; None; Some (Fault eio eq_refl)] in
  let '(r1, w1) := checkGoqueType "D" goquePrefixQueue w0 in
  let '(r2, w2) := checkGoqueType "D" goqueStack w1 in
  r1 = (false, Some eio) /\ marker "D" w1 = None /\ staging "D" w1 = Some [x03] /\
  r2 = (true, None) /\ marker "D" w2 = Some [x00] /\ staging "D" w2 = None.
Proof. vm_compute. repeat split. Qed.

(** With the empty path as data directory the entries go to the current
    directory, here under the key of the empty path, but [os.Open] cannot
    open the empty path: the first use puts the marker in place and fails
    all the same, at the directory sync. *)
Example empty_data_dir_scenario :
  let w0 := boot {[ "" := ∅ ]} [] in
  let '(r1, w1) := checkGoqueType "" goqueQueue w0 in
  let '(r2, w2) := checkGoqueType "" goqueQueue w1 in
  r1 = (false, Some (PathError "open" "" (SysErrno ENOENT))) /\
  marker "" w1 = Some [x01] /\
  path_string (Join "" "GOQUE") = "GOQUE" /\
  r2 = (true, None).
Proof. vm_compute. repeat split. Qed.

(** [filepath.Join] cleans what it joins. *)
Example joined_paths :
  (fun d => path_string (Join d "GOQUE")) <$> [""; "."; "/"; "E"; "E/"; "a/../b"; ".."; "/x//y/"]
  = ["GOQUE"; "GOQUE"; "/GOQUE"; "E/GOQUE"; "E/GOQUE"; "b/GOQUE"; "../GOQUE"; "/x/y/GOQUE"].
Proof. reflexivity. Qed.
